(** * truthsocial-line-notifier: the new-post detection and delivery pipeline

    A shallow embedding of [src/main.py].  The program reads a cursor (the id
    of the last post it has seen) from a text file, fetches a profile page,
    extracts post records, keeps the records whose id is greater than the
    cursor, pushes one notification per kept record and writes the new cursor
    back.

    Conventions of the embedding.
    - A Python [str] is a [string]; its characters are the code points below
      256.  Python compares [str] values code point by code point, which is
      [String.compare].
    - [None] is the [None] of an [option].
    - Code that can raise returns a [result]; code that touches the cursor
      file or the network runs in the monad [M] below, which threads the
      [world] and reads the replies of the outside from an [env]. *)

From Stdlib Require Import List String Ascii Bool Arith NArith ZArith Lia.
From Stdlib Require Import Permutation Sorted DecimalString.
Import ListNotations.

Open Scope string_scope.
Open Scope list_scope.

(** ** Python strings *)

Module PyStr.

(** Truth value of a [str]: every string but the empty one. *)
Definition truthy (s : string) : bool :=
  match s with
  | EmptyString => false
  | String _ _ => true
  end.

(** Truth value of what [os.getenv] returns: [None] and [""] are false. *)
Definition truthy_opt (o : option string) : bool :=
  match o with
  | None => false
  | Some s => truthy s
  end.

(** [a < b] and [a <= b] on [str], as propositions. *)
Definition lt (a b : string) : Prop := String.compare a b = Lt.
Definition le (a b : string) : Prop := String.compare a b <> Gt.

(** [str.isspace] on one character.  Below 256 the whitespace code points are
    9 to 13, 28 to 32, 133 and 160. *)
Definition isspace (c : ascii) : bool :=
  let n := N_of_ascii c in
  ((9 <=? n) && (n <=? 13) || (28 <=? n) && (n <=? 32)
   || (n =? 133) || (n =? 160))%N.

Fixpoint lstrip (s : string) : string :=
  match s with
  | EmptyString => EmptyString
  | String c s' => if isspace c then lstrip s' else s
  end.

Fixpoint rstrip (s : string) : string :=
  match s with
  | EmptyString => EmptyString
  | String c s' =>
      match rstrip s' with
      | EmptyString => if isspace c then EmptyString else String c EmptyString
      | r => String c r
      end
  end.

(** [s.strip()] with no argument. *)
Definition strip (s : string) : string := rstrip (lstrip s).

(** [str(x)] inside an f-string, for a value that is a [str] or [None]. *)
Definition format_opt (o : option string) : string :=
  match o with
  | None => "None"
  | Some s => s
  end.

End PyStr.

(** ** Post records

    One dictionary built by the extraction loop of [get_trump_posts].  The
    [id], [content] and [link] entries are always [str]; the [timestamp] entry
    is what [timestamp_elem.get('datetime')] returned, which is [None] when
    the element has no such attribute. *)

Record PostRecord : Type := {
  id : string;
  content : string;
  timestamp : option string;
  link : string
}.

(** ** Exceptions and results *)

Inductive exc : Type :=
| FileNotFoundError
| TypeError
| OSError
| RequestException
| OtherException.

Inductive result (A : Type) : Type :=
| Ok (a : A)
| Raise (x : exc).

Arguments Ok {A} a.
Arguments Raise {A} x.

(** ** [posts.sort(key=lambda x: x.get('timestamp', ''))]

    Every record has a [timestamp] entry, so the key is its value.  The sort
    is stable and ascending and compares keys with [<] only.  Comparing [None]
    with anything raises [TypeError]; with two records or more every key takes
    part in a comparison, with fewer there is none. *)

Definition sort_key (x : PostRecord) : option string := timestamp x.

Fixpoint insert_by_key (kx : string) (x : PostRecord)
    (l : list (string * PostRecord)) : list (string * PostRecord) :=
  match l with
  | [] => [(kx, x)]
  | (ky, y) :: l' =>
      if ky <? kx then (ky, y) :: insert_by_key kx x l' else (kx, x) :: l
  end.

Fixpoint stable_sort (l : list (string * PostRecord))
    : list (string * PostRecord) :=
  match l with
  | [] => []
  | (k, x) :: l' => insert_by_key k x (stable_sort l')
  end.

(** The order the sort establishes on the keyed records. *)
Definition key_le (a b : string * PostRecord) : Prop :=
  PyStr.le (fst a) (fst b).

Definition key_is_none (x : PostRecord) : bool :=
  match sort_key x with
  | None => true
  | Some _ => false
  end.

Definition keyed (x : PostRecord) : string * PostRecord :=
  (match sort_key x with Some k => k | None => "" end, x).

Definition sort_by_timestamp (posts : list PostRecord)
    : result (list PostRecord) :=
  if (2 <=? List.length posts)%nat && existsb key_is_none posts
  then Raise TypeError
  else Ok (map snd (stable_sort (map keyed posts))).

(** ** The novelty filter (the loop of [main] over the sorted posts)

    The loop state is the pair [(new_posts, newest_post_id)]. *)

Definition filter_step (last_post_id : string)
    (st : list PostRecord * string) (post : PostRecord)
    : list PostRecord * string :=
  let '(new_posts, newest_post_id) := st in
  let post_id := id post in
  if negb (PyStr.truthy last_post_id) || (last_post_id <? post_id) then
    (new_posts ++ [post],
     if negb (PyStr.truthy newest_post_id) || (newest_post_id <? post_id)
     then post_id else newest_post_id)
  else st.

Definition novelty_filter (last_post_id : string) (posts : list PostRecord)
    : list PostRecord * string :=
  fold_left (filter_step last_post_id) posts ([], last_post_id).

(** ** What the specification says of the filter *)

(** A record is new when the cursor is empty or its id is strictly greater
    than the cursor. *)
Definition is_new (cursor : string) (r : PostRecord) : bool :=
  (cursor =? "") || (cursor <? id r).

(** [m] is the maximum of the strings [xs]. *)
Definition is_max_of (m : string) (xs : list string) : Prop :=
  In m xs /\ forall x, In x xs -> PyStr.le x m.

(** The greater of two strings, and the greatest of [m] and the strings [xs],
    taken from the left as the loop does. *)
Definition str_max (a b : string) : string := if a <? b then b else a.

Definition max_of (m : string) (xs : list string) : string :=
  fold_left str_max xs m.

(** "Cursor advance is non-decreasing": the updated cursor is the maximum of
    the cursor and the new ids, it is not below the cursor, and it equals the
    cursor exactly when the new-set is empty. *)
Definition cursor_advance_as_stated (c : string) (S : list PostRecord) : Prop :=
  let new_posts := fst (novelty_filter c S) in
  let updated := snd (novelty_filter c S) in
  is_max_of updated (c :: map id new_posts)
  /\ PyStr.le c updated
  /\ (updated = c <-> new_posts = []).

(** "Idempotent re-run": a second run on the same candidates, from the cursor
    the first run produced, finds nothing new. *)
Definition rerun_finds_nothing (c : string) (S : list PostRecord) : Prop :=
  fst (novelty_filter (snd (novelty_filter c S)) S) = [].

(** ** The outside world

    [world] is what the program changes: the cursor file and the requests and
    writes it has made.  [env] is what the outside answers. *)

Inductive event : Type :=
| HttpPost (authorization to text : string)
| CursorWritten (data : string).

Record world : Type := {
  cursor_file : option string;   (* [None]: last_post_id.txt does not exist *)
  trace : list event
}.

Inductive http_reply : Type :=
| Response (status_code : Z) (text : string)
| RequestFails.

Inductive platform : Type := Posix | Windows.

Record env : Type := {
  LINE_CHANNEL_TOKEN : option string;
  LINE_USER_ID : option string;
  host : platform;
  (* the reply to [requests.get(TRUTH_SOCIAL_URL, ...)] *)
  requests_get : http_reply;
  (* the reply to the POST made after [n] earlier ones *)
  requests_post : nat -> http_reply;
  (* what BeautifulSoup and the extraction loop make of a page *)
  extract_posts : string -> result (list PostRecord);
  (* [Some n]: writing the cursor file raises once [n] characters are in it *)
  write_fault : option nat
}.

Definition M (A : Type) : Type := env -> world -> result A * world.

Definition ret {A : Type} (a : A) : M A := fun _ w => (Ok a, w).

Definition bind {A B : Type} (m : M A) (k : A -> M B) : M B :=
  fun e w =>
    match m e w with
    | (Ok a, w') => k a e w'
    | (Raise x, w') => (Raise x, w')
    end.

Definition lift {A : Type} (r : result A) : M A := fun _ w => (r, w).

Definition getenv {A : Type} (f : env -> A) : M A := fun e w => (Ok (f e), w).

(** [try: body / except <catches>: handler]. *)
Definition try_except {A : Type} (body : M A) (catches : exc -> bool)
    (handler : M A) : M A :=
  fun e w =>
    match body e w with
    | (Ok a, w') => (Ok a, w')
    | (Raise x, w') => if catches x then handler e w' else (Raise x, w')
    end.

Definition except_Exception (x : exc) : bool := true.

Definition except_FileNotFoundError (x : exc) : bool :=
  match x with
  | FileNotFoundError => true
  | _ => false
  end.

Notation "x <- m ;; k" := (bind m (fun x => k))
  (at level 61, m at next level, right associativity).
Notation "m ;; k" := (bind m (fun _ => k))
  (at level 61, right associativity).

Fixpoint for_each {A : Type} (l : list A) (body : A -> M unit) : M unit :=
  match l with
  | [] => ret tt
  | x :: l' => body x ;; for_each l' body
  end.

(** ** Text files

    The file is opened in text mode with the default [newline=None].  Written
    ["\n"] becomes [os.linesep]; on reading, ["\r\n"] and a lone ["\r"] become
    ["\n"].  The encoding is taken to give back the characters written. *)

Definition LF : ascii := ascii_of_nat 10.
Definition CR : ascii := ascii_of_nat 13.

Definition os_linesep (p : platform) : string :=
  match p with
  | Posix => String LF EmptyString
  | Windows => String CR (String LF EmptyString)
  end.

Fixpoint newline_out (linesep : string) (s : string) : string :=
  match s with
  | EmptyString => EmptyString
  | String c s' =>
      if Ascii.eqb c LF then String.append linesep (newline_out linesep s')
      else String c (newline_out linesep s')
  end.

Fixpoint universal_newlines (s : string) : string :=
  match s with
  | EmptyString => EmptyString
  | String c s' =>
      if Ascii.eqb c CR then
        match s' with
        | String c2 s'' =>
            if Ascii.eqb c2 LF then String LF (universal_newlines s'')
            else String LF (universal_newlines s')
        | EmptyString => String LF EmptyString
        end
      else String c (universal_newlines s')
  end.

(** The first [n] characters of [s]. *)
Definition str_prefix (n : nat) (s : string) : string := substring 0 n s.

(** [open(LAST_POST_FILE, "r")] followed by [f.read()]. *)
Definition read_cursor_file : M string :=
  fun _ w =>
    match cursor_file w with
    | None => (Raise FileNotFoundError, w)
    | Some raw => (Ok (universal_newlines raw), w)
    end.

(** [open(LAST_POST_FILE, "w")]: the file is created or truncated. *)
Definition open_cursor_file_w : M unit :=
  fun _ w => (Ok tt, {| cursor_file := Some ""; trace := trace w |}).

(** [f.write(data)] and the flush when the [with] block closes the file. *)
Definition write_cursor_file (data : string) : M unit :=
  fun e w =>
    let old := match cursor_file w with Some s => s | None => "" end in
    let out := newline_out (os_linesep (host e)) data in
    match write_fault e with
    | None =>
        (Ok tt, {| cursor_file := Some (String.append old out);
                   trace := trace w ++ [CursorWritten data] |})
    | Some n =>
        (Raise OSError,
         {| cursor_file := Some (String.append old (str_prefix n out));
            trace := trace w |})
    end.

(** ** The program *)

Definition TRUTH_SOCIAL_URL : string := "https://truthsocial.com/@realDonaldTrump".

Definition get_last_processed_id : M string :=
  try_except
    (s <- read_cursor_file ;; ret (PyStr.strip s))
    except_FileNotFoundError
    (ret "").

Definition save_last_processed_id (post_id : string) : M unit :=
  open_cursor_file_w ;;
  write_cursor_file post_id.

Definition http_get : M (Z * string) :=
  fun e w =>
    match requests_get e with
    | Response status body => (Ok (status, body), w)
    | RequestFails => (Raise RequestException, w)
    end.

Definition get_trump_posts : M (list PostRecord) :=
  try_except
    (response <- http_get ;;
     if negb (fst response =? 200)%Z then ret []
     else
       extract <- getenv extract_posts ;;
       lift (extract (snd response)))
    except_Exception
    (ret []).

Definition posts_made (t : list event) : nat :=
  List.length
    (filter (fun ev => match ev with HttpPost _ _ _ => true | _ => false end) t).

(** [requests.post(LINE_API_URL, headers=headers, data=json.dumps(payload))]:
    the event keeps the [Authorization] header and the [to] and [text] fields
    of the payload. *)
Definition http_post (authorization to text : string) : M (Z * string) :=
  fun e w =>
    let w' := {| cursor_file := cursor_file w;
                 trace := trace w ++ [HttpPost authorization to text] |} in
    match requests_post e (posts_made (trace w)) with
    | Response status body => (Ok (status, body), w')
    | RequestFails => (Raise RequestException, w')
    end.

Definition send_line_notification (message : string) : M bool :=
  token <- getenv LINE_CHANNEL_TOKEN ;;
  user <- getenv LINE_USER_ID ;;
  if negb (PyStr.truthy_opt token) || negb (PyStr.truthy_opt user) then
    ret false
  else
    try_except
      (response <-
         http_post (String.append "Bearer " (PyStr.format_opt token))
                   (PyStr.format_opt user) message ;;
       if (fst response =? 200)%Z then ret true else ret false)
      except_Exception
      (ret false).

(** The text of a notification.  The characters of the literals above 255 are
    kept as their UTF-8 bytes. *)
Definition notification_text (post : PostRecord) : string :=
  let nl := String LF EmptyString in
  String.concat ""
    ["Donald Trump 有新貼文！"; nl; nl; content post; nl; nl;
     "連結: "; link post].

Definition main : M unit :=
  last_post_id <- get_last_processed_id ;;
  posts <- get_trump_posts ;;
  match posts with
  | [] => ret tt
  | _ :: _ =>
      posts <- lift (sort_by_timestamp posts) ;;
      let '(new_posts, newest_post_id) := novelty_filter last_post_id posts in
      match new_posts with
      | _ :: _ =>
          for_each new_posts
            (fun post =>
               _ <- send_line_notification (notification_text post) ;; ret tt) ;;
          save_last_processed_id newest_post_id
      | [] => ret tt
      end
  end.

(** ** What the specification says of delivery and persistence *)

(** The cursor a run starts from: the stripped text of the cursor file, the
    empty string when there is no file. *)
Definition cursor_of (w : world) : string :=
  match cursor_file w with
  | None => ""
  | Some raw => PyStr.strip (universal_newlines raw)
  end.

(** Both the channel token and the user id are configured. *)
Definition line_configured (e : env) : bool :=
  PyStr.truthy_opt (LINE_CHANNEL_TOKEN e) && PyStr.truthy_opt (LINE_USER_ID e).

(** One POST per message, in order, when LINE is configured; none otherwise. *)
Definition deliveries (e : env) (messages : list string) : list event :=
  if line_configured e then
    map (HttpPost
           (String.append "Bearer " (PyStr.format_opt (LINE_CHANNEL_TOKEN e)))
           (PyStr.format_opt (LINE_USER_ID e)))
        messages
  else [].

(** A fetch error: no reply at all, or a status outside 200..299. *)
Definition fetch_error (r : http_reply) : Prop :=
  match r with
  | RequestFails => True
  | Response status _ => (status < 200 \/ 300 <= status)%Z
  end.

(** What a complete write of [data] leaves in the file. *)
Definition stored (e : env) (data : string) : string :=
  newline_out (os_linesep (host e)) data.

(** "Full overwrite or none": after [save_last_processed_id data] the file
    holds what it held before or all of the new value. *)
Definition save_is_atomic (e : env) (w : world) (data : string) : Prop :=
  let w' := snd (save_last_processed_id data e w) in
  cursor_file w' = cursor_file w \/ cursor_file w' = Some (stored e data).

(** "Round trip": when the write does not fail, reading the cursor after
    saving [s] gives [s] stripped. *)
Definition round_trip_as_stated (e : env) (w : world) (s : string) : Prop :=
  write_fault e = None ->
  fst (get_last_processed_id e (snd (save_last_processed_id s e w)))
  = Ok (PyStr.strip s).

(** [c in s]. *)
Fixpoint contains (c : ascii) (s : string) : bool :=
  match s with
  | EmptyString => false
  | String c' s' => Ascii.eqb c' c || contains c s'
  end.

(** ** Sample inputs *)

Definition sample_post (i t : string) : PostRecord :=
  {| id := i; content := "text"; timestamp := Some t;
     link := "https://truthsocial.com/p" |}.

Definition sample_batch : list PostRecord :=
  [sample_post "101" "2024-01-02"; sample_post "099" "2024-01-01";
   sample_post "102" "2024-01-03"].

(** A record whose [data-id] attribute is the empty string. *)
Definition post_with_empty_id : PostRecord := sample_post "" "2024-01-01".

(** An id with a carriage return between two digits. *)
Definition id_with_cr : string := String "1" (String CR (String "2" EmptyString)).

(** A configured host on which the page yields [sample_batch]; the first
    POST fails in transport, the second is refused, the others succeed. *)
Definition sample_env : env :=
  {| LINE_CHANNEL_TOKEN := Some "token";
     LINE_USER_ID := Some "user";
     host := Posix;
     requests_get := Response 200 "<html>";
     requests_post := fun n =>
       match n with
       | O => RequestFails
       | S O => Response 500 "error"
       | _ => Response 200 "{}"
       end;
     extract_posts := fun _ => Ok sample_batch;
     write_fault := None |}.

(** The same host when the page cannot be fetched. *)
Definition env_fetch_fails : env :=
  {| LINE_CHANNEL_TOKEN := LINE_CHANNEL_TOKEN sample_env;
     LINE_USER_ID := LINE_USER_ID sample_env;
     host := host sample_env;
     requests_get := Response 503 "unavailable";
     requests_post := requests_post sample_env;
     extract_posts := extract_posts sample_env;
     write_fault := None |}.

(** The same host when writing the cursor file fails at once. *)
Definition env_write_fails : env :=
  {| LINE_CHANNEL_TOKEN := LINE_CHANNEL_TOKEN sample_env;
     LINE_USER_ID := LINE_USER_ID sample_env;
     host := host sample_env;
     requests_get := requests_get sample_env;
     requests_post := requests_post sample_env;
     extract_posts := extract_posts sample_env;
     write_fault := Some 0%nat |}.

(** A world in which the cursor file holds ["100"]. *)
Definition world_100 : world := {| cursor_file := Some "100"; trace := [] |}.

(** ** The extraction loop of [get_trump_posts]

    A container is one element of
    [soup.select('div.status-card, article.status')], seen through the
    look-ups the loop makes in it and the two clock readings it may take while
    the container is processed. *)

Record container : Type := {
  (* [post.select_one('[data-id]')]: the [data-id] of the element found *)
  data_id : option string;
  (* the [id] attribute of the container itself *)
  own_id : option string;
  (* [get_text()] of the element [post.select_one('.status__content, .post-content')] *)
  content_text : option string;
  (* [post.select_one('time, .status__relative-time')] and its [datetime]
     attribute: [Some None] is an element without the attribute *)
  time_datetime : option (option string);
  (* [post.select_one('a.status__relative-time, a.post-link')] and its [href] *)
  link_href : option (option string);
  (* [int(time.time())] *)
  clock_unix : Z;
  (* [datetime.now().isoformat()] *)
  clock_iso : string
}.

Definition SITE_ORIGIN : string := "https://truthsocial.com".

(** [str(n)] for an [int]. *)
Definition str_of_int (n : Z) : string := NilEmpty.string_of_int (Z.to_int n).

(** The body of the [try] for one container.  [link.startswith] on a [None]
    link raises [AttributeError], which [except Exception] catches. *)
Definition extract_post (c : container) : result PostRecord :=
  let post_id :=
    match data_id c with
    | Some v => v
    | None =>
        match own_id c with
        | Some v => v
        | None => String.append "unknown-" (str_of_int (clock_unix c))
        end
    end in
  let content :=
    match content_text c with
    | Some t => PyStr.strip t
    | None => "內容無法解析"
    end in
  let post_time :=
    match time_datetime c with
    | Some attr => attr
    | None => Some (clock_iso c)
    end in
  match
    match link_href c with
    | Some href => href
    | None => Some TRUTH_SOCIAL_URL
    end
  with
  | None => Raise OtherException
  | Some link =>
      let link :=
        if negb (String.prefix "http" link)
        then String.append SITE_ORIGIN link else link in
      Ok {| id := post_id; content := content;
            timestamp := post_time; link := link |}
  end.

Definition extract_step (results : list PostRecord) (c : container)
    : list PostRecord :=
  match extract_post c with
  | Ok r => results ++ [r]
  | Raise _ => results
  end.

(** The loop over the containers, from [results = []]. *)
Definition extract_records (containers : list container) : list PostRecord :=
  fold_left extract_step containers [].

(** What one container adds to [results]. *)
Definition records_of (c : container) : list PostRecord :=
  match extract_post c with
  | Ok r => [r]
  | Raise _ => []
  end.

(** A container the loop can turn into a record: its link element, when
    there is one, has an [href]. *)
Definition well_formed (c : container) : bool :=
  match link_href c with
  | Some None => false
  | _ => true
  end.

(** ** More vocabulary for the properties below *)

(** The posts a run works on: the extracted records of a page fetched with
    status 200, nothing otherwise. *)
Definition fetched_posts (e : env) : list PostRecord :=
  match requests_get e with
  | Response status body =>
      if (status =? 200)%Z then
        match extract_posts e body with
        | Ok posts => posts
        | Raise _ => []
        end
      else []
  | RequestFails => []
  end.

(** Ascending order of timestamps, on records. *)
Definition timestamp_le (a b : PostRecord) : Prop :=
  key_le (keyed a) (keyed b).

(** The record's sort key is [t]. *)
Definition has_timestamp (t : string) (r : PostRecord) : bool :=
  fst (keyed r) =? t.

(** Every character of [s] is whitespace. *)
Fixpoint all_space (s : string) : bool :=
  match s with
  | EmptyString => true
  | String c s' => PyStr.isspace c && all_space s'
  end.

(** [s] is empty or starts with a character that is not whitespace. *)
Definition no_leading_space (s : string) : Prop :=
  match s with
  | EmptyString => True
  | String c _ => PyStr.isspace c = false
  end.

(** [c] is one of the characters ['0'] to ['9']. *)
Definition is_digit (c : ascii) : bool :=
  ((48 <=? N_of_ascii c) && (N_of_ascii c <=? 57))%N.

Fixpoint all_digits (s : string) : bool :=
  match s with
  | EmptyString => true
  | String c s' => is_digit c && all_digits s'
  end.

Definition starts_with_digit (s : string) : bool :=
  match s with
  | EmptyString => false
  | String c _ => is_digit c
  end.

(** The number a string of decimal digits writes. *)
Fixpoint decimal_value_from (acc : N) (s : string) : N :=
  match s with
  | EmptyString => acc
  | String c s' => decimal_value_from (10 * acc + (N_of_ascii c - 48))%N s'
  end.

Definition decimal_value (s : string) : N := decimal_value_from 0%N s.

(** More sample inputs. *)

Definition sample_container (i : string) (href : option (option string))
    : container :=
  {| data_id := Some i; own_id := None; content_text := Some " text ";
     time_datetime := Some (Some "2024-01-01"); link_href := href;
     clock_unix := 1700000000%Z; clock_iso := "2024-01-01T00:00:00" |}.

(** A container with neither a [data-id] element nor an [id]. *)
Definition container_without_id : container :=
  {| data_id := None; own_id := None; content_text := None;
     time_datetime := None; link_href := None;
     clock_unix := 1700000000%Z; clock_iso := "2024-01-01T00:00:00" |}.

(** The record the loop makes of [container_without_id]. *)
Definition placeholder_record : PostRecord :=
  {| id := "unknown-1700000000"; content := "內容無法解析";
     timestamp := Some "2024-01-01T00:00:00";
     link := "https://truthsocial.com/@realDonaldTrump" |}.

(** Three containers, the second with a link element that has no [href]. *)
Definition sample_containers : list container :=
  [sample_container "101" (Some (Some "/p/101"));
   sample_container "102" (Some None);
   sample_container "103" None].

(** [sample_env] without LINE credentials. *)
Definition env_unconfigured : env :=
  {| LINE_CHANNEL_TOKEN := None;
     LINE_USER_ID := LINE_USER_ID sample_env;
     host := host sample_env;
     requests_get := requests_get sample_env;
     requests_post := requests_post sample_env;
     extract_posts := extract_posts sample_env;
     write_fault := None |}.


(** A world in which the cursor file holds ["102"], and one without a file. *)
Definition world_102 : world := {| cursor_file := Some "102"; trace := [] |}.
Definition world_fresh : world := {| cursor_file := None; trace := [] |}.

(** * Proofs *)

(** ** The order on strings *)

Module PyStrFacts.
Import PyStr.

Lemma truthy_false (s : string) : truthy s = false <-> s = "".
Proof. destruct s; simpl; split; congruence. Qed.

Lemma truthy_true (s : string) : truthy s = true <-> s <> "".
Proof. destruct s; simpl; split; congruence. Qed.

Lemma ascii_compare_refl (a : ascii) : Ascii.compare a a = Eq.
Proof. unfold Ascii.compare. apply N.compare_refl. Qed.

Lemma ascii_compare_lt_trans (a b c : ascii) :
  Ascii.compare a b = Lt -> Ascii.compare b c = Lt -> Ascii.compare a c = Lt.
Proof.
  unfold Ascii.compare. rewrite !N.compare_lt_iff. apply N.lt_trans.
Qed.

Lemma compare_refl (s : string) : String.compare s s = Eq.
Proof.
  induction s as [|a s IH]; simpl; [reflexivity|].
  now rewrite ascii_compare_refl.
Qed.

Lemma ltb_lt (a b : string) : (a <? b) = true <-> lt a b.
Proof.
  unfold String.ltb, lt. destruct (String.compare a b); split; congruence.
Qed.

Lemma ltb_nlt (a b : string) : (a <? b) = false <-> le b a.
Proof.
  unfold String.ltb, le. rewrite (String.compare_antisym b a).
  destruct (String.compare a b); simpl; split; congruence.
Qed.

Lemma leb_le (a b : string) : (a <=? b) = true <-> le a b.
Proof.
  unfold String.leb, le. destruct (String.compare a b); split; congruence.
Qed.

Lemma lt_trans (a b c : string) : lt a b -> lt b c -> lt a c.
Proof.
  unfold lt. revert b c.
  induction a as [|x a IH]; intros [|y b] [|z c]; simpl; try congruence.
  destruct (Ascii.compare x y) eqn:Hxy; try discriminate;
    destruct (Ascii.compare y z) eqn:Hyz; try discriminate; intros Hab Hbc.
  - apply Ascii.compare_eq_iff in Hxy, Hyz. subst.
    rewrite ascii_compare_refl. eauto.
  - apply Ascii.compare_eq_iff in Hxy. subst. now rewrite Hyz.
  - apply Ascii.compare_eq_iff in Hyz. subst. now rewrite Hxy.
  - now rewrite (ascii_compare_lt_trans _ _ _ Hxy Hyz).
Qed.

Lemma lt_irrefl (a : string) : ~ lt a a.
Proof. unfold lt. rewrite compare_refl. discriminate. Qed.

Lemma le_refl (a : string) : le a a.
Proof. unfold le. rewrite compare_refl. discriminate. Qed.

Lemma lt_le (a b : string) : lt a b -> le a b.
Proof. unfold lt, le. congruence. Qed.

Lemma le_lt_or_eq (a b : string) : le a b <-> lt a b \/ a = b.
Proof.
  unfold le, lt. split.
  - destruct (String.compare a b) eqn:H; try congruence; auto.
    right. now apply String.compare_eq_iff.
  - intros [H| ->]; [congruence | rewrite compare_refl; discriminate].
Qed.

Lemma le_not_lt (a b : string) : le a b <-> ~ lt b a.
Proof.
  unfold le, lt. rewrite (String.compare_antisym b a).
  destruct (String.compare a b); simpl; split; congruence.
Qed.

Lemma le_trans (a b c : string) : le a b -> le b c -> le a c.
Proof.
  rewrite !le_lt_or_eq. intros [H1| ->] [H2| ->]; auto.
  left. eapply lt_trans; eauto.
Qed.

Lemma le_antisym (a b : string) : le a b -> le b a -> a = b.
Proof.
  intros H1 H2. apply String.leb_antisym; now apply leb_le.
Qed.

Lemma empty_le (a : string) : le "" a.
Proof. destruct a; unfold le; simpl; discriminate. Qed.

Lemma le_empty (a : string) : le a "" -> a = "".
Proof. intros H. apply le_antisym; [assumption | apply empty_le]. Qed.

Lemma eqb_empty (c : string) : (c =? "") = negb (truthy c).
Proof. destruct c; reflexivity. Qed.

End PyStrFacts.

Create HintDb pystr.

#[local] Hint Resolve PyStrFacts.le_refl PyStrFacts.empty_le PyStrFacts.lt_le
  : pystr.

(** ** Maxima *)

Lemma str_max_cases (a b : string) :
  (str_max a b = a /\ PyStr.le b a) \/ (str_max a b = b /\ PyStr.lt a b).
Proof.
  unfold str_max. destruct (a <? b) eqn:H.
  - right. split; [reflexivity | now apply PyStrFacts.ltb_lt].
  - left. split; [reflexivity | now apply PyStrFacts.ltb_nlt].
Qed.

Lemma str_max_ub_l (a b : string) : PyStr.le a (str_max a b).
Proof.
  destruct (str_max_cases a b) as [[-> _]|[-> H]]; auto with pystr.
Qed.

Lemma str_max_ub_r (a b : string) : PyStr.le b (str_max a b).
Proof.
  destruct (str_max_cases a b) as [[-> H]|[-> _]]; auto with pystr.
Qed.

Lemma max_of_is_max (xs : list string) :
  forall m, is_max_of (max_of m xs) (m :: xs).
Proof.
  unfold max_of.
  induction xs as [|x xs IH]; intros m; simpl.
  - split; [now left | intros y [<-|[]]; auto with pystr].
  - destruct (IH (str_max m x)) as [Hin Hub]. split.
    + destruct Hin as [Hin|Hin]; [|now right; right].
      rewrite <- Hin.
      destruct (str_max_cases m x) as [[-> _]|[-> _]]; [now left | now right; left].
    + intros y [<-|[<-|Hy]].
      * eapply PyStrFacts.le_trans; [apply str_max_ub_l | apply Hub; now left].
      * eapply PyStrFacts.le_trans; [apply str_max_ub_r | apply Hub; now left].
      * apply Hub. now right.
Qed.

Lemma is_max_of_unique (a b : string) (xs : list string) :
  is_max_of a xs -> is_max_of b xs -> a = b.
Proof.
  intros [Ha Ua] [Hb Ub]. apply PyStrFacts.le_antisym; auto.
Qed.

Lemma is_max_of_perm (m : string) (xs ys : list string) :
  Permutation xs ys -> is_max_of m xs -> is_max_of m ys.
Proof.
  intros HP [Hin Hub]. split.
  - eapply Permutation_in; eauto.
  - intros y Hy. apply Hub. eapply Permutation_in; [symmetry|]; eauto.
Qed.

(** ** The loop computes a filter and a maximum *)

Lemma newest_update (m pid : string) :
  (if negb (PyStr.truthy m) || (m <? pid) then pid else m) = str_max m pid.
Proof.
  unfold str_max. destruct m as [|a m]; simpl; [|reflexivity].
  destruct pid; reflexivity.
Qed.

Lemma filter_step_new (c : string) (acc : list PostRecord) (m : string)
    (r : PostRecord) :
  filter_step c (acc, m) r =
  if is_new c r then (acc ++ [r], str_max m (id r)) else (acc, m).
Proof.
  unfold filter_step, is_new. rewrite PyStrFacts.eqb_empty.
  rewrite newest_update. reflexivity.
Qed.

Lemma filter_loop (c : string) (S : list PostRecord) :
  forall acc m,
    fold_left (filter_step c) S (acc, m) =
    (acc ++ filter (is_new c) S, max_of m (map id (filter (is_new c) S))).
Proof.
  induction S as [|r S IH]; intros acc m; cbn [fold_left filter].
  - now rewrite app_nil_r.
  - rewrite filter_step_new. destruct (is_new c r); cbn [map].
    + rewrite IH, <- app_assoc. reflexivity.
    + apply IH.
Qed.

Lemma novelty_filter_eq (c : string) (S : list PostRecord) :
  novelty_filter c S =
  (filter (is_new c) S, max_of c (map id (filter (is_new c) S))).
Proof. unfold novelty_filter. now rewrite filter_loop. Qed.

Lemma is_new_true (c : string) (r : PostRecord) :
  is_new c r = true <-> c = "" \/ PyStr.lt c (id r).
Proof.
  unfold is_new. rewrite orb_true_iff, String.eqb_eq, PyStrFacts.ltb_lt.
  reflexivity.
Qed.

Lemma is_new_false (c : string) (r : PostRecord) :
  is_new c r = false <-> c <> "" /\ PyStr.le (id r) c.
Proof.
  unfold is_new. rewrite orb_false_iff, String.eqb_neq, PyStrFacts.ltb_nlt.
  reflexivity.
Qed.

Lemma is_new_empty (r : PostRecord) : is_new "" r = true.
Proof. reflexivity. Qed.

Lemma filter_all {A : Type} (f : A -> bool) (l : list A) :
  (forall x, In x l -> f x = true) -> filter f l = l.
Proof.
  induction l as [|a l IH]; intros H; simpl; [reflexivity|].
  rewrite (H a (or_introl eq_refl)). f_equal. apply IH.
  intros x Hx. apply H. now right.
Qed.

Lemma filter_none {A : Type} (f : A -> bool) (l : list A) :
  filter f l = [] <-> (forall x, In x l -> f x = false).
Proof.
  induction l as [|a l IH]; simpl.
  - split; [intros _ x [] | reflexivity].
  - destruct (f a) eqn:Ha; split.
    + discriminate.
    + intros H. specialize (H a (or_introl eq_refl)). congruence.
    + intros H x [<-|Hx]; [assumption | now apply IH].
    + intros H. apply IH. intros x Hx. apply H. now right.
Qed.

Lemma filter_perm {A : Type} (f : A -> bool) (l1 l2 : list A) :
  Permutation l1 l2 -> Permutation (filter f l1) (filter f l2).
Proof.
  induction 1 as [|x l1 l2 HP IH|x y l|l1 l2 l3 H1 IH1 H2 IH2]; simpl.
  - constructor.
  - destruct (f x); [now constructor | assumption].
  - destruct (f x), (f y); try reflexivity. constructor.
  - etransitivity; eassumption.
Qed.

(** The updated cursor bounds the id of every candidate, new or not. *)
Lemma updated_cursor_bounds (c : string) (S : list PostRecord) (r : PostRecord) :
  In r S -> PyStr.le (id r) (snd (novelty_filter c S)).
Proof.
  intros Hr. rewrite novelty_filter_eq. simpl.
  destruct (max_of_is_max (map id (filter (is_new c) S)) c) as [_ Hub].
  destruct (is_new c r) eqn:Hn.
  - apply Hub. right. apply in_map. apply filter_In. auto.
  - apply is_new_false in Hn. destruct Hn as [_ Hle].
    eapply PyStrFacts.le_trans; [exact Hle | apply Hub; now left].
Qed.

(** ** The timestamp sort *)

Lemma insert_by_key_perm (k : string) (x : PostRecord)
    (l : list (string * PostRecord)) :
  Permutation (insert_by_key k x l) ((k, x) :: l).
Proof.
  induction l as [|[ky y] l IH]; simpl; [reflexivity|].
  destruct (ky <? k); [|reflexivity].
  rewrite IH. apply perm_swap.
Qed.

Lemma stable_sort_perm (l : list (string * PostRecord)) :
  Permutation (stable_sort l) l.
Proof.
  induction l as [|[k x] l IH]; simpl; [reflexivity|].
  rewrite insert_by_key_perm. now constructor.
Qed.

Lemma insert_by_key_sorted (k : string) (x : PostRecord)
    (l : list (string * PostRecord)) :
  Sorted key_le l -> Sorted key_le (insert_by_key k x l).
Proof.
  induction l as [|[ky y] l IH]; intros Hs; simpl.
  - repeat constructor.
  - destruct (ky <? k) eqn:Hk.
    + inversion Hs as [|? ? Hs' Hhd]; subst. constructor; [now apply IH|].
      destruct l as [|[kz z] l]; simpl.
      * constructor. apply PyStrFacts.lt_le. now apply PyStrFacts.ltb_lt.
      * destruct (kz <? k) eqn:Hz.
        -- inversion Hhd; subst. now constructor.
        -- constructor. apply PyStrFacts.lt_le. now apply PyStrFacts.ltb_lt.
    + constructor; [assumption|]. constructor.
      now apply PyStrFacts.ltb_nlt.
Qed.

Lemma stable_sort_sorted (l : list (string * PostRecord)) :
  Sorted key_le (stable_sort l).
Proof.
  induction l as [|[k x] l IH]; simpl; [constructor|].
  now apply insert_by_key_sorted.
Qed.

Lemma map_snd_keyed (l : list PostRecord) : map snd (map keyed l) = l.
Proof.
  rewrite map_map. unfold keyed. simpl. apply map_id.
Qed.

Lemma sort_by_timestamp_perm (l sorted : list PostRecord) :
  sort_by_timestamp l = Ok sorted -> Permutation l sorted.
Proof.
  unfold sort_by_timestamp.
  destruct ((2 <=? List.length l)%nat && existsb key_is_none l);
    [discriminate|].
  intros [= <-]. rewrite <- (map_snd_keyed l) at 1.
  apply Permutation_map. symmetry. apply stable_sort_perm.
Qed.

(** The sort succeeds on every batch in which each record has a timestamp. *)
Lemma sort_by_timestamp_total (l : list PostRecord) :
  (forall r, In r l -> timestamp r <> None) ->
  exists sorted, sort_by_timestamp l = Ok sorted.
Proof.
  intros H. unfold sort_by_timestamp.
  replace (existsb key_is_none l) with false.
  - rewrite andb_false_r. eauto.
  - symmetry. apply not_true_is_false. intros Hex.
    apply existsb_exists in Hex. destruct Hex as [r [Hr Hk]].
    unfold key_is_none, sort_key in Hk. specialize (H r Hr).
    destruct (timestamp r); congruence.
Qed.

(** ** The claims on the novelty filter *)

(** C1 (monotonic filtering): for every cursor [c] and candidate list [S], the
    records the loop keeps are, in order, exactly the records of [S] for
    which [c] is empty or [id > c]; a record is kept if and only if it is in
    [S] and satisfies that test; and with a non-empty [c] no record with
    [id <= c] is kept. *)
Theorem monotonic_filtering (c : string) (S : list PostRecord) :
  fst (novelty_filter c S) = filter (is_new c) S
  /\ (forall r, In r (fst (novelty_filter c S)) <->
                In r S /\ (c = "" \/ PyStr.lt c (id r)))
  /\ (forall r, c <> "" -> PyStr.le (id r) c ->
                ~ In r (fst (novelty_filter c S))).
Proof.
  rewrite novelty_filter_eq. cbn [fst]. split; [reflexivity|]. split.
  - intros r. rewrite filter_In, is_new_true. reflexivity.
  - intros r Hc Hle Hin. apply filter_In in Hin. destruct Hin as [_ Hn].
    apply is_new_true in Hn. destruct Hn as [Hn|Hn]; [contradiction|].
    apply PyStrFacts.le_not_lt in Hle. contradiction.
Qed.

Lemma monotonic_filtering_witness :
  fst (novelty_filter "100" sample_batch) = filter (is_new "100") sample_batch
  /\ ~ In (sample_post "099" "2024-01-01")
          (fst (novelty_filter "100" sample_batch)).
Proof.
  destruct (monotonic_filtering "100" sample_batch) as [H1 [_ H3]].
  split; [exact H1|].
  apply H3; [discriminate | vm_compute; discriminate].
Defined.

(** C2 (bootstrap): with an empty cursor and a non-empty candidate list every
    candidate is kept, in order, and the updated cursor is the greatest id
    among the candidates. *)
Theorem bootstrap (S : list PostRecord) :
  S <> [] ->
  fst (novelty_filter "" S) = S
  /\ is_max_of (snd (novelty_filter "" S)) (map id S).
Proof.
  intros Hne. rewrite novelty_filter_eq. cbn [fst snd].
  rewrite (filter_all (is_new "") S (fun r _ => is_new_empty r)).
  split; [reflexivity|].
  destruct (max_of_is_max (map id S) "") as [Hin Hub]. split.
  - destruct Hin as [Hin|Hin]; [|assumption].
    destruct S as [|r S]; [congruence|].
    assert (Hr : PyStr.le (id r) (max_of "" (map id (r :: S))))
      by (apply Hub; right; now left).
    rewrite <- Hin in Hr |- *. apply PyStrFacts.le_empty in Hr.
    left. exact Hr.
  - intros x Hx. apply Hub. now right.
Qed.

Lemma bootstrap_witness :
  fst (novelty_filter "" sample_batch) = sample_batch
  /\ is_max_of (snd (novelty_filter "" sample_batch)) (map id sample_batch).
Proof. apply (bootstrap sample_batch). discriminate. Defined.

(** C3, as stated, fails: with an empty cursor and one candidate whose id is
    the empty string the candidate is new, yet the updated cursor equals the
    cursor. *)
Lemma cursor_advance_counterexample :
  ~ cursor_advance_as_stated "" [post_with_empty_id].
Proof.
  unfold cursor_advance_as_stated. intros [_ [_ [H _]]].
  vm_compute in H. specialize (H eq_refl). discriminate.
Qed.

(** C3 (cursor advance), amended: the updated cursor is the maximum of the
    cursor and the ids of the new records, hence not below the cursor; it
    equals the cursor exactly when the new-set is empty or the cursor is empty
    and every candidate's id is the empty string. *)
Theorem cursor_advance (c : string) (S : list PostRecord) :
  is_max_of (snd (novelty_filter c S)) (c :: map id (fst (novelty_filter c S)))
  /\ PyStr.le c (snd (novelty_filter c S))
  /\ (snd (novelty_filter c S) = c <->
      fst (novelty_filter c S) = []
      \/ (c = "" /\ forall r, In r S -> id r = "")).
Proof.
  pose proof (updated_cursor_bounds c S) as Hbound.
  rewrite novelty_filter_eq in *. cbn [fst snd] in *.
  pose proof (max_of_is_max (map id (filter (is_new c) S)) c) as Hmax.
  split; [exact Hmax|]. split; [apply Hmax; now left|]. split.
  - intros Heq. destruct c as [|a c'].
    + right. split; [reflexivity|]. intros r Hr.
      apply PyStrFacts.le_empty. rewrite <- Heq. now apply Hbound.
    + left. apply filter_none. intros r Hr.
      destruct (is_new (String a c') r) eqn:Hn; [exfalso|reflexivity].
      apply is_new_true in Hn. destruct Hn as [Hn|Hn]; [discriminate|].
      specialize (Hbound r Hr). rewrite Heq in Hbound.
      apply PyStrFacts.le_not_lt in Hbound. contradiction.
  - intros [Hnil|[-> Hall]].
    + rewrite Hnil. reflexivity.
    + destruct Hmax as [[Hin|Hin] _]; [now symmetry|].
      apply in_map_iff in Hin. destruct Hin as [r [Hid Hr]].
      apply filter_In in Hr. rewrite <- Hid. apply Hall. tauto.
Qed.

(** C4, as stated, fails: from an empty cursor and one candidate whose id is
    the empty string the first run returns the empty cursor, and the second
    run finds the candidate new again. *)
Lemma rerun_counterexample :
  ~ rerun_finds_nothing "" [post_with_empty_id].
Proof. unfold rerun_finds_nothing. vm_compute. discriminate. Qed.

(** C4 (idempotent re-run), amended: the second run, on the same candidates
    and from the cursor the first run produced, finds nothing new exactly
    when that cursor is non-empty or there is no candidate. *)
Theorem rerun_idempotent (c : string) (S : list PostRecord) :
  rerun_finds_nothing c S <-> snd (novelty_filter c S) <> "" \/ S = [].
Proof.
  unfold rerun_finds_nothing.
  pose proof (updated_cursor_bounds c S) as Hbound.
  set (c' := snd (novelty_filter c S)) in *.
  rewrite (novelty_filter_eq c' S). cbn [fst]. split.
  - intros Hnil. destruct c' as [|a c''] eqn:Hc'; [right | left; discriminate].
    rewrite (filter_all (is_new "") S (fun r _ => is_new_empty r)) in Hnil.
    exact Hnil.
  - intros [Hne| ->]; [|reflexivity].
    apply filter_none. intros r Hr. apply is_new_false. auto.
Qed.

Lemma rerun_idempotent_witness : rerun_finds_nothing "100" sample_batch.
Proof.
  apply (rerun_idempotent "100" sample_batch). left. vm_compute. discriminate.
Defined.

(** C5 (the sort only reorders): for every cursor, two candidate lists that
    are permutations of each other give new-sets that are permutations of each
    other and the same updated cursor; in particular filtering the list the
    timestamp sort returns selects the same records and computes the same
    cursor as filtering the unsorted list. *)
Theorem timestamp_sort_only_reorders (c : string) :
  (forall l1 l2 : list PostRecord,
      Permutation l1 l2 ->
      Permutation (fst (novelty_filter c l1)) (fst (novelty_filter c l2))
      /\ snd (novelty_filter c l1) = snd (novelty_filter c l2))
  /\ (forall l sorted : list PostRecord,
      sort_by_timestamp l = Ok sorted ->
      Permutation (fst (novelty_filter c l)) (fst (novelty_filter c sorted))
      /\ snd (novelty_filter c l) = snd (novelty_filter c sorted)).
Proof.
  assert (Hperm : forall l1 l2 : list PostRecord,
      Permutation l1 l2 ->
      Permutation (fst (novelty_filter c l1)) (fst (novelty_filter c l2))
      /\ snd (novelty_filter c l1) = snd (novelty_filter c l2)).
  { intros l1 l2 HP. rewrite !novelty_filter_eq. cbn [fst snd].
    pose proof (filter_perm (is_new c) l1 l2 HP) as HF.
    split; [exact HF|].
    eapply is_max_of_unique; [apply max_of_is_max|].
    eapply is_max_of_perm; [|apply max_of_is_max].
    constructor. apply Permutation_map. now symmetry. }
  split; [exact Hperm|].
  intros l sorted Hs. apply Hperm. now apply sort_by_timestamp_perm.
Qed.

Lemma timestamp_sort_only_reorders_witness :
  Permutation (fst (novelty_filter "100" sample_batch))
    (fst (novelty_filter "100"
            [sample_post "099" "2024-01-01"; sample_post "101" "2024-01-02";
             sample_post "102" "2024-01-03"]))
  /\ snd (novelty_filter "100" sample_batch) =
     snd (novelty_filter "100"
            [sample_post "099" "2024-01-01"; sample_post "101" "2024-01-02";
             sample_post "102" "2024-01-03"]).
Proof.
  apply (proj2 (timestamp_sort_only_reorders "100")). reflexivity.
Defined.

(** ** Running the effectful functions *)

Lemma bind_run {A B : Type} (m : M A) (k : A -> M B) (e : env) (w w' : world)
    (a : A) :
  m e w = (Ok a, w') -> bind m k e w = k a e w'.
Proof. intros H. unfold bind. now rewrite H. Qed.

Lemma log_nothing (w : world) :
  {| cursor_file := cursor_file w; trace := trace w ++ [] |} = w.
Proof. destruct w; simpl. now rewrite app_nil_r. Qed.

Lemma get_last_processed_id_run (e : env) (w : world) :
  get_last_processed_id e w = (Ok (cursor_of w), w).
Proof.
  unfold get_last_processed_id, try_except, bind, read_cursor_file, cursor_of.
  destruct (cursor_file w); reflexivity.
Qed.

(** [get_trump_posts] never raises and leaves the world as it is. *)
Lemma get_trump_posts_run (e : env) (w : world) :
  exists posts, get_trump_posts e w = (Ok posts, w).
Proof.
  unfold get_trump_posts, try_except, bind, http_get, getenv, lift, ret.
  destruct (requests_get e) as [status body|]; cbn [fst snd].
  - destruct (status =? 200)%Z; cbn [negb]; [|eauto].
    destruct (extract_posts e body); cbn; eauto.
  - cbn. eauto.
Qed.

Lemma send_line_notification_run (message : string) (e : env) (w : world) :
  exists b,
    send_line_notification message e w =
    (Ok b, {| cursor_file := cursor_file w;
              trace := trace w ++ deliveries e [message] |})
    /\ (b = true <->
        line_configured e = true
        /\ exists body,
            requests_post e (posts_made (trace w)) = Response 200 body).
Proof.
  unfold send_line_notification, deliveries, line_configured, bind, getenv.
  rewrite <- negb_andb.
  destruct (PyStr.truthy_opt (LINE_CHANNEL_TOKEN e)
            && PyStr.truthy_opt (LINE_USER_ID e)); cbn [negb map].
  - unfold try_except, bind, http_post, ret, except_Exception.
    destruct (requests_post e (posts_made (trace w))) as [status body|];
      cbn [fst snd].
    + destruct (status =? 200)%Z eqn:Hs.
      * exists true. split; [reflexivity|]. split; [|reflexivity].
        intros _. split; [reflexivity|]. exists body.
        apply Z.eqb_eq in Hs. now subst.
      * exists false. split; [reflexivity|]. split; [discriminate|].
        intros [_ [body' [= Hst _]]]. subst.
        rewrite Z.eqb_refl in Hs. discriminate.
    + exists false. split; [reflexivity|]. split; [discriminate|].
      intros [_ [body' Hb]]. discriminate.
  - exists false. unfold ret. rewrite log_nothing.
    split; [reflexivity|]. split; [discriminate|]. intros [Hc _]. discriminate.
Qed.

Lemma deliveries_app (e : env) (l1 l2 : list string) :
  deliveries e (l1 ++ l2) = deliveries e l1 ++ deliveries e l2.
Proof.
  unfold deliveries. destruct (line_configured e); [apply map_app | reflexivity].
Qed.

(** The delivery loop of [main] makes the POSTs of every message, whatever
    the replies, and does not touch the cursor file. *)
Lemma delivery_loop_run (e : env) (new_posts : list PostRecord) :
  forall w,
    for_each new_posts
      (fun post => _ <- send_line_notification (notification_text post) ;; ret tt)
      e w =
    (Ok tt, {| cursor_file := cursor_file w;
               trace := trace w
                        ++ deliveries e (map notification_text new_posts) |}).
Proof.
  induction new_posts as [|p l IH]; intros w; cbn [for_each map].
  - unfold ret, deliveries. destruct (line_configured e); cbn [map];
      now rewrite log_nothing.
  - destruct (send_line_notification_run (notification_text p) e w)
      as [b [Hrun _]].
    unfold bind at 1. unfold bind at 1. rewrite Hrun. unfold ret at 1.
    rewrite IH. cbn [cursor_file trace].
    change (notification_text p :: map notification_text l)
      with ([notification_text p] ++ map notification_text l).
    now rewrite deliveries_app, app_assoc.
Qed.

Lemma save_last_processed_id_run (data : string) (e : env) (w : world) :
  save_last_processed_id data e w =
  match write_fault e with
  | None =>
      (Ok tt, {| cursor_file := Some (stored e data);
                 trace := trace w ++ [CursorWritten data] |})
  | Some n =>
      (Raise OSError, {| cursor_file := Some (str_prefix n (stored e data));
                         trace := trace w |})
  end.
Proof.
  unfold save_last_processed_id, bind, open_cursor_file_w, write_cursor_file,
    stored.
  cbn [cursor_file trace]. destruct (write_fault e); reflexivity.
Qed.

(** ** Text mode gives back what was written, carriage returns apart *)

Lemma text_mode_round_trip (p : platform) (s : string) :
  contains CR s = false ->
  universal_newlines (newline_out (os_linesep p) s) = s.
Proof.
  induction s as [|c s IH]; cbn [contains newline_out]; [reflexivity|].
  intros H. apply orb_false_iff in H. destruct H as [Hc Hs].
  specialize (IH Hs).
  destruct (Ascii.eqb c LF) eqn:Hlf.
  - apply Ascii.eqb_eq in Hlf. subst c.
    destruct p; set (rest := newline_out _ s) in *; cbn; now rewrite IH.
  - cbn [universal_newlines]. rewrite Hc. now rewrite IH.
Qed.

(** ** The claims on delivery and persistence *)

(** C6 (delivery isolation): when a run finds new records and writing the
    cursor file does not fail, then whatever the replies to the POSTs are
    (success, a status other than 200 or a transport failure, in any
    pattern), the run makes the POST of every new record in order when LINE
    is configured, then writes the cursor exactly once, and the value written
    is the updated cursor computed from all the new records. *)
Theorem delivery_isolation (e : env) (w : world)
    (posts sorted : list PostRecord) :
  fst (get_trump_posts e w) = Ok posts ->
  sort_by_timestamp posts = Ok sorted ->
  fst (novelty_filter (cursor_of w) sorted) <> [] ->
  write_fault e = None ->
  main e w =
  (Ok tt,
   {| cursor_file :=
        Some (stored e (snd (novelty_filter (cursor_of w) sorted)));
      trace :=
        trace w
        ++ deliveries e
             (map notification_text (fst (novelty_filter (cursor_of w) sorted)))
        ++ [CursorWritten (snd (novelty_filter (cursor_of w) sorted))] |}).
Proof.
  intros Hget Hsort Hnew Hw.
  destruct (get_trump_posts_run e w) as [posts' Hrun].
  rewrite Hrun in Hget. cbn [fst] in Hget. injection Hget as ->.
  unfold main.
  rewrite (bind_run _ _ _ _ _ _ (get_last_processed_id_run e w)).
  rewrite (bind_run _ _ _ _ _ _ Hrun).
  destruct posts as [|p posts].
  { exfalso. apply Hnew. cbn in Hsort. injection Hsort as <-. reflexivity. }
  unfold bind at 1, lift at 1. rewrite Hsort.
  destruct (novelty_filter (cursor_of w) sorted) as [new_posts newest] eqn:Hnf.
  cbn [fst snd] in *.
  destruct new_posts as [|r new_posts]; [congruence|].
  unfold bind at 1. rewrite delivery_loop_run.
  rewrite save_last_processed_id_run, Hw. cbn [trace cursor_file].
  now rewrite app_assoc.
Qed.

Lemma delivery_isolation_witness :
  main sample_env world_100 =
  (Ok tt,
   {| cursor_file := Some "102";
      trace :=
        [HttpPost "Bearer token" "user"
           (notification_text (sample_post "101" "2024-01-02"));
         HttpPost "Bearer token" "user"
           (notification_text (sample_post "102" "2024-01-03"));
         CursorWritten "102"] |}).
Proof.
  refine (delivery_isolation sample_env world_100 sample_batch
            [sample_post "099" "2024-01-01"; sample_post "101" "2024-01-02";
             sample_post "102" "2024-01-03"] _ _ _ _).
  - reflexivity.
  - reflexivity.
  - vm_compute. discriminate.
  - reflexivity.
Defined.

(** C7 (fetch error): when the GET fails in transport or returns a status
    outside 200..299, [get_trump_posts] returns the empty list without
    raising, and the run ends normally with the world as it was: no POST, no
    write, the cursor file unchanged. *)
Theorem fetch_error_is_quiet (e : env) (w : world) :
  fetch_error (requests_get e) ->
  get_trump_posts e w = (Ok [], w) /\ main e w = (Ok tt, w).
Proof.
  intros Herr.
  assert (Hget : get_trump_posts e w = (Ok [], w)).
  { unfold get_trump_posts, try_except, bind, http_get.
    destruct (requests_get e) as [status body|]; [|reflexivity].
    cbn [fst]. simpl in Herr.
    replace (status =? 200)%Z with false; [reflexivity|].
    symmetry. apply Z.eqb_neq. lia. }
  split; [exact Hget|].
  unfold main.
  rewrite (bind_run _ _ _ _ _ _ (get_last_processed_id_run e w)).
  rewrite (bind_run _ _ _ _ _ _ Hget). reflexivity.
Qed.

Lemma fetch_error_is_quiet_witness :
  get_trump_posts env_fetch_fails world_100 = (Ok [], world_100)
  /\ main env_fetch_fails world_100 = (Ok tt, world_100).
Proof.
  apply (fetch_error_is_quiet env_fetch_fails world_100).
  simpl. right. lia.
Defined.

(** C8, as stated, fails: the file holds ["100"], saving ["102"] fails in the
    write, and the file is left empty, which is neither value. *)
Lemma save_is_atomic_counterexample :
  ~ save_is_atomic env_write_fails world_100 "102".
Proof.
  unfold save_is_atomic. vm_compute. intros [H|H]; discriminate.
Qed.

(** C8 (persisting the cursor), amended: the save truncates the file and
    then writes.  When the write completes, the save returns and the file
    holds the complete new value; when the write raises after [n] characters,
    the save raises and the file holds only the first [n] characters of the
    new value, the previous value being lost. *)
Theorem save_truncates_then_writes (e : env) (w : world) (data : string) :
  match write_fault e with
  | None =>
      fst (save_last_processed_id data e w) = Ok tt
      /\ cursor_file (snd (save_last_processed_id data e w))
         = Some (stored e data)
  | Some n =>
      fst (save_last_processed_id data e w) = Raise OSError
      /\ cursor_file (snd (save_last_processed_id data e w))
         = Some (str_prefix n (stored e data))
  end.
Proof.
  rewrite save_last_processed_id_run.
  destruct (write_fault e); split; reflexivity.
Qed.

(** C9 ([send_line_notification] is total): for every message, environment
    and world the call returns a boolean and never raises; the boolean is
    [True] exactly when the channel token and the user id are both configured
    and the reply to the POST has status 200. *)
Theorem send_line_notification_total (message : string) (e : env) (w : world) :
  exists (b : bool) (w' : world),
    send_line_notification message e w = (Ok b, w')
    /\ (b = true <->
        PyStr.truthy_opt (LINE_CHANNEL_TOKEN e) = true
        /\ PyStr.truthy_opt (LINE_USER_ID e) = true
        /\ exists body,
            requests_post e (posts_made (trace w)) = Response 200 body).
Proof.
  destruct (send_line_notification_run message e w) as [b [Hrun Hb]].
  exists b. eexists. split; [exact Hrun|].
  rewrite Hb. unfold line_configured. rewrite andb_true_iff. tauto.
Qed.

(** C10, as stated, fails: the id ["1\r2"] has no surrounding whitespace, is
    written as it is, and is read back as ["1\n2"]. *)
Lemma round_trip_counterexample :
  ~ round_trip_as_stated sample_env world_100 id_with_cr.
Proof.
  unfold round_trip_as_stated. intros H. specialize (H eq_refl).
  vm_compute in H. discriminate.
Qed.

(** C10 (cursor round trip), amended: when the write does not fail, reading
    the cursor after saving [s] returns the text-mode image of [s], stripped;
    for every [s] that contains no carriage return this is [s] stripped, and
    [s] itself when [s] has no surrounding whitespace. *)
Theorem cursor_round_trip (e : env) (w : world) (s : string) :
  write_fault e = None ->
  fst (get_last_processed_id e (snd (save_last_processed_id s e w)))
  = Ok (PyStr.strip (universal_newlines (stored e s)))
  /\ (contains CR s = false ->
      fst (get_last_processed_id e (snd (save_last_processed_id s e w)))
      = Ok (PyStr.strip s))
  /\ (contains CR s = false -> PyStr.strip s = s ->
      fst (get_last_processed_id e (snd (save_last_processed_id s e w)))
      = Ok s).
Proof.
  intros Hw.
  rewrite save_last_processed_id_run, Hw. cbn [snd].
  rewrite get_last_processed_id_run. unfold cursor_of. cbn [fst cursor_file].
  split; [reflexivity|]. unfold stored.
  split; intros Hcr; rewrite (text_mode_round_trip _ _ Hcr);
    [reflexivity | intros ->; reflexivity].
Qed.

Lemma cursor_round_trip_witness :
  fst (get_last_processed_id sample_env
         (snd (save_last_processed_id "102" sample_env world_100)))
  = Ok "102".
Proof.
  destruct (cursor_round_trip sample_env world_100 "102" eq_refl)
    as [_ [_ H]].
  apply H; reflexivity.
Defined.

(** * Further properties of the code *)

(** ** The timestamp sort: order and stability *)

Lemma keyed_snd (x : PostRecord) : keyed x = keyed (snd (keyed x)).
Proof. reflexivity. Qed.

Lemma stable_sort_keyed (l : list PostRecord) :
  Forall (fun p => p = keyed (snd p)) (stable_sort (map keyed l)).
Proof.
  apply Forall_forall. intros p Hp.
  apply (Permutation_in _ (stable_sort_perm (map keyed l))) in Hp.
  apply in_map_iff in Hp. destruct Hp as [x [<- _]]. apply keyed_snd.
Qed.

Lemma sorted_map_snd (ps : list (string * PostRecord)) :
  Forall (fun p => p = keyed (snd p)) ps ->
  Sorted key_le ps -> Sorted timestamp_le (map snd ps).
Proof.
  induction ps as [|p ps IH]; intros Hk Hs; cbn [map]; [constructor|].
  inversion Hk as [|? ? Hp Hps]; subst.
  inversion Hs as [|? ? Hs' Hhd]; subst.
  constructor; [now apply IH|].
  destruct ps as [|q ps]; cbn [map]; constructor.
  inversion Hhd as [|? ? Hpq]; subst.
  inversion Hps as [|? ? Hq _]; subst.
  unfold timestamp_le. now rewrite <- Hp, <- Hq.
Qed.

Lemma insert_by_key_filter (t k : string) (x : PostRecord)
    (l : list (string * PostRecord)) :
  filter (fun p => fst p =? t) (insert_by_key k x l) =
  filter (fun p => fst p =? t) ((k, x) :: l).
Proof.
  induction l as [|[ky y] l IH]; [reflexivity|].
  cbn [insert_by_key]. destruct (ky <? k) eqn:Hlt; [|reflexivity].
  cbn [filter fst] in *. rewrite IH.
  destruct (ky =? t) eqn:Hy; destruct (k =? t) eqn:Hx; try reflexivity.
  apply String.eqb_eq in Hy, Hx. subst.
  apply PyStrFacts.ltb_lt in Hlt. now apply PyStrFacts.lt_irrefl in Hlt.
Qed.

Lemma stable_sort_filter (t : string) (l : list (string * PostRecord)) :
  filter (fun p => fst p =? t) (stable_sort l) =
  filter (fun p => fst p =? t) l.
Proof.
  induction l as [|[k x] l IH]; [reflexivity|].
  cbn [stable_sort]. rewrite insert_by_key_filter.
  cbn [filter]. now rewrite IH.
Qed.

Lemma filter_map_snd (t : string) (ps : list (string * PostRecord)) :
  Forall (fun p => p = keyed (snd p)) ps ->
  filter (has_timestamp t) (map snd ps) =
  map snd (filter (fun p => fst p =? t) ps).
Proof.
  induction 1 as [|p ps Hp Hps IH]; [reflexivity|].
  cbn [map filter]. unfold has_timestamp at 1. rewrite <- Hp.
  destruct (fst p =? t); cbn [map]; now rewrite IH.
Qed.

Lemma sort_by_timestamp_ok (l sorted : list PostRecord) :
  sort_by_timestamp l = Ok sorted ->
  sorted = map snd (stable_sort (map keyed l)).
Proof.
  unfold sort_by_timestamp.
  destruct ((2 <=? List.length l)%nat && existsb key_is_none l);
    [discriminate | now intros [= <-]].
Qed.

Lemma timestamp_le_trans (a b c : PostRecord) :
  timestamp_le a b -> timestamp_le b c -> timestamp_le a c.
Proof. unfold timestamp_le, key_le. apply PyStrFacts.le_trans. Qed.

Lemma strongly_sorted_filter {A : Type} (R : A -> A -> Prop) (f : A -> bool)
    (l : list A) :
  StronglySorted R l -> StronglySorted R (filter f l).
Proof.
  induction 1 as [|a l Hs IH Hall]; cbn [filter]; [constructor|].
  destruct (f a); [|assumption].
  constructor; [assumption|].
  apply Forall_forall. intros x Hx. apply filter_In in Hx.
  rewrite Forall_forall in Hall. now apply Hall.
Qed.

Lemma sort_by_timestamp_sorted (l sorted : list PostRecord) :
  sort_by_timestamp l = Ok sorted -> Sorted timestamp_le sorted.
Proof.
  intros Hs. rewrite (sort_by_timestamp_ok l sorted Hs).
  apply sorted_map_snd; [apply stable_sort_keyed | apply stable_sort_sorted].
Qed.

(** X1: when the sort returns, its result is a permutation of the batch in
    ascending order of timestamp. *)
Theorem sort_by_timestamp_sorts (l sorted : list PostRecord) :
  sort_by_timestamp l = Ok sorted ->
  Permutation l sorted /\ Sorted timestamp_le sorted.
Proof.
  intros Hs. split.
  - now apply sort_by_timestamp_perm.
  - now apply (sort_by_timestamp_sorted l).
Qed.

Lemma sort_by_timestamp_sorts_witness :
  Permutation sample_batch
    [sample_post "099" "2024-01-01"; sample_post "101" "2024-01-02";
     sample_post "102" "2024-01-03"]
  /\ Sorted timestamp_le
       [sample_post "099" "2024-01-01"; sample_post "101" "2024-01-02";
        sample_post "102" "2024-01-03"].
Proof. apply (sort_by_timestamp_sorts sample_batch). reflexivity. Defined.

(** X2: the sort is stable: the records that share a timestamp come out in
    the order they had in the batch. *)
Theorem sort_by_timestamp_stable (l sorted : list PostRecord) (t : string) :
  sort_by_timestamp l = Ok sorted ->
  filter (has_timestamp t) sorted = filter (has_timestamp t) l.
Proof.
  intros Hs. rewrite (sort_by_timestamp_ok l sorted Hs).
  rewrite (filter_map_snd t _ (stable_sort_keyed l)).
  rewrite stable_sort_filter.
  rewrite <- (filter_map_snd t).
  - now rewrite map_snd_keyed.
  - apply Forall_forall. intros p Hp. apply in_map_iff in Hp.
    destruct Hp as [x [<- _]]. apply keyed_snd.
Qed.

Lemma sort_by_timestamp_stable_witness :
  filter (has_timestamp "2024-01-01")
    [sample_post "2" "2024-01-01"; sample_post "1" "2024-01-01";
     sample_post "3" "2024-01-02"]
  = filter (has_timestamp "2024-01-01")
      [sample_post "3" "2024-01-02"; sample_post "2" "2024-01-01";
       sample_post "1" "2024-01-01"].
Proof.
  apply (sort_by_timestamp_stable
           [sample_post "3" "2024-01-02"; sample_post "2" "2024-01-01";
            sample_post "1" "2024-01-01"]).
  reflexivity.
Defined.

(** X3: the new posts of a sorted batch, which are notified in list order,
    are in ascending order of timestamp. *)
Theorem new_posts_in_timestamp_order (c : string) (l sorted : list PostRecord) :
  sort_by_timestamp l = Ok sorted ->
  Sorted timestamp_le (fst (novelty_filter c sorted)).
Proof.
  intros Hs. rewrite novelty_filter_eq. cbn [fst].
  apply StronglySorted_Sorted. apply strongly_sorted_filter.
  apply Sorted_StronglySorted.
  - intros a b d. apply timestamp_le_trans.
  - now apply (sort_by_timestamp_sorted l).
Qed.

Lemma new_posts_in_timestamp_order_witness :
  Sorted timestamp_le
    (fst (novelty_filter "100"
            [sample_post "099" "2024-01-01"; sample_post "101" "2024-01-02";
             sample_post "102" "2024-01-03"])).
Proof.
  apply (new_posts_in_timestamp_order "100" sample_batch). reflexivity.
Defined.

(** ** The novelty filter: the cursor bounds everything seen *)

(** X4: the updated cursor is the maximum of the cursor and the ids of all
    the candidates, new or not: after a run no candidate's id is above it. *)
Theorem updated_cursor_is_max_of_all (c : string) (S : list PostRecord) :
  is_max_of (snd (novelty_filter c S)) (c :: map id S).
Proof.
  split.
  - rewrite novelty_filter_eq. cbn [snd].
    destruct (max_of_is_max (map id (filter (is_new c) S)) c) as [[Hin|Hin] _].
    + now left.
    + right. apply in_map_iff in Hin. destruct Hin as [r [Hid Hr]].
      apply filter_In in Hr. apply in_map_iff. exists r. tauto.
  - intros x [<-|Hx].
    + rewrite novelty_filter_eq. cbn [snd].
      apply (max_of_is_max (map id (filter (is_new c) S)) c). now left.
    + apply in_map_iff in Hx. destruct Hx as [r [<- Hr]].
      now apply updated_cursor_bounds.
Qed.

(** ** Reading the cursor *)

Lemma lstrip_no_leading_space (s : string) :
  no_leading_space (PyStr.lstrip s).
Proof.
  induction s as [|c s IH]; cbn [PyStr.lstrip]; [exact I|].
  destruct (PyStr.isspace c) eqn:Hc; [exact IH | exact Hc].
Qed.

Lemma lstrip_fixed (t : string) : no_leading_space t -> PyStr.lstrip t = t.
Proof.
  destruct t as [|c t]; cbn [no_leading_space PyStr.lstrip]; [reflexivity|].
  now intros ->.
Qed.

Lemma rstrip_no_leading_space (t : string) :
  no_leading_space t -> no_leading_space (PyStr.rstrip t).
Proof.
  destruct t as [|c t]; cbn [no_leading_space PyStr.rstrip]; [trivial|].
  intros Hc. rewrite Hc. destruct (PyStr.rstrip t); exact Hc.
Qed.

Lemma rstrip_idempotent (t : string) :
  PyStr.rstrip (PyStr.rstrip t) = PyStr.rstrip t.
Proof.
  induction t as [|c t IH]; cbn [PyStr.rstrip]; [reflexivity|].
  destruct (PyStr.rstrip t) as [|d r] eqn:Hr.
  - destruct (PyStr.isspace c) eqn:Hc; cbn [PyStr.rstrip]; [reflexivity|].
    now rewrite Hc.
  - cbn [PyStr.rstrip] in *. now rewrite IH.
Qed.

Lemma strip_idempotent (s : string) :
  PyStr.strip (PyStr.strip s) = PyStr.strip s.
Proof.
  unfold PyStr.strip.
  rewrite (lstrip_fixed (PyStr.rstrip (PyStr.lstrip s))).
  - apply rstrip_idempotent.
  - apply rstrip_no_leading_space, lstrip_no_leading_space.
Qed.

Lemma strip_all_space (s : string) :
  all_space s = true -> PyStr.strip s = "".
Proof.
  unfold PyStr.strip. intros H.
  replace (PyStr.lstrip s) with ""; [reflexivity|].
  induction s as [|c s IH]; cbn [all_space PyStr.lstrip] in *; [reflexivity|].
  apply andb_true_iff in H. destruct H as [Hc Hs]. rewrite Hc. now apply IH.
Qed.

Lemma universal_newlines_all_space (s : string) :
  (all_space s = true -> all_space (universal_newlines s) = true)
  /\ (forall c, all_space (String c s) = true ->
                all_space (universal_newlines (String c s)) = true).
Proof.
  induction s as [|d s [IH1 IH2]].
  - split; [trivial|]. intros c. cbn [universal_newlines all_space].
    destruct (Ascii.eqb c CR); cbn [all_space]; [reflexivity | trivial].
  - split; [apply IH2|]. intros c H.
    cbn [all_space] in H. apply andb_true_iff in H. destruct H as [Hc Hds].
    pose proof Hds as Hds'. cbn [all_space] in Hds'.
    apply andb_true_iff in Hds'. destruct Hds' as [Hd Hs].
    cbn [universal_newlines]. fold (universal_newlines (String d s)).
    destruct (Ascii.eqb c CR).
    + destruct (Ascii.eqb d LF); cbn [all_space].
      * change (PyStr.isspace LF) with true. cbn [andb]. now apply IH1.
      * change (PyStr.isspace LF) with true. cbn [andb]. now apply IH2.
    + cbn [all_space]. rewrite Hc. cbn [andb]. now apply IH2.
Qed.

(** X5: [get_last_processed_id] never raises and changes nothing; the cursor
    it returns has no surrounding whitespace, and it is the empty cursor both
    when the file is missing and when the file holds only whitespace. *)
Theorem get_last_processed_id_stripped (e : env) (w : world) :
  exists c,
    get_last_processed_id e w = (Ok c, w)
    /\ PyStr.strip c = c
    /\ (cursor_file w = None -> c = "")
    /\ (forall raw, cursor_file w = Some raw -> all_space raw = true -> c = "").
Proof.
  exists (cursor_of w). split; [apply get_last_processed_id_run|].
  unfold cursor_of. destruct (cursor_file w) as [raw|].
  - split; [apply strip_idempotent|]. split; [discriminate|].
    intros raw' [= <-] Hsp. apply strip_all_space.
    now apply universal_newlines_all_space.
  - repeat split; reflexivity.
Qed.

(** ** Fetching *)

Lemma get_trump_posts_fetched (e : env) (w : world) :
  get_trump_posts e w = (Ok (fetched_posts e), w).
Proof.
  unfold get_trump_posts, fetched_posts, try_except, bind, http_get, getenv,
    lift, ret.
  destruct (requests_get e) as [status body|]; cbn [fst snd]; [|reflexivity].
  destruct (status =? 200)%Z; cbn [negb]; [|reflexivity].
  destruct (extract_posts e body); reflexivity.
Qed.

(** X6: [get_trump_posts] never raises and changes nothing; it returns posts
    only when the status is exactly 200 and the extraction returned them: any
    other status, a transport failure or a failing extraction gives the empty
    list. *)
Theorem get_trump_posts_only_200 (e : env) (w : world) :
  exists posts,
    get_trump_posts e w = (Ok posts, w)
    /\ (posts <> [] ->
        exists body,
          requests_get e = Response 200 body
          /\ extract_posts e body = Ok posts).
Proof.
  exists (fetched_posts e). split; [apply get_trump_posts_fetched|].
  unfold fetched_posts.
  destruct (requests_get e) as [status body|]; [|congruence].
  destruct (status =? 200)%Z eqn:Hs; [|congruence].
  apply Z.eqb_eq in Hs. subst status.
  destruct (extract_posts e body) as [posts|x] eqn:Hx; [|congruence].
  intros _. exists body. split; [reflexivity | exact Hx].
Qed.

(** ** Sending *)

(** X7: [send_line_notification] never touches the cursor file and makes at
    most one request: none when the token or the user id is missing,
    otherwise one POST that carries the token, the user id and the message. *)
Theorem send_line_notification_effect (message : string) (e : env) (w : world) :
  cursor_file (snd (send_line_notification message e w)) = cursor_file w
  /\ trace (snd (send_line_notification message e w)) =
     trace w ++
     (if PyStr.truthy_opt (LINE_CHANNEL_TOKEN e)
         && PyStr.truthy_opt (LINE_USER_ID e)
      then [HttpPost
              (String.append "Bearer " (PyStr.format_opt (LINE_CHANNEL_TOKEN e)))
              (PyStr.format_opt (LINE_USER_ID e)) message]
      else []).
Proof.
  destruct (send_line_notification_run message e w) as [b [Hrun _]].
  rewrite Hrun. cbn [snd cursor_file trace]. split; [reflexivity|].
  unfold deliveries, line_configured.
  destruct (PyStr.truthy_opt (LINE_CHANNEL_TOKEN e)
            && PyStr.truthy_opt (LINE_USER_ID e)); reflexivity.
Qed.

(** ** Whole runs *)

Lemma main_run (e : env) (w : world) :
  main e w =
  match fetched_posts e with
  | [] => (Ok tt, w)
  | _ :: _ =>
      match sort_by_timestamp (fetched_posts e) with
      | Raise x => (Raise x, w)
      | Ok sorted =>
          match fst (novelty_filter (cursor_of w) sorted) with
          | [] => (Ok tt, w)
          | _ :: _ =>
              save_last_processed_id
                (snd (novelty_filter (cursor_of w) sorted)) e
                {| cursor_file := cursor_file w;
                   trace :=
                     trace w
                     ++ deliveries e
                          (map notification_text
                             (fst (novelty_filter (cursor_of w) sorted))) |}
          end
      end
  end.
Proof.
  unfold main.
  rewrite (bind_run _ _ _ _ _ _ (get_last_processed_id_run e w)).
  rewrite (bind_run _ _ _ _ _ _ (get_trump_posts_fetched e w)).
  destruct (fetched_posts e) as [|p posts]; [reflexivity|].
  unfold bind at 1, lift at 1.
  destruct (sort_by_timestamp (p :: posts)) as [sorted|x]; [|reflexivity].
  destruct (novelty_filter (cursor_of w) sorted) as [new_posts newest].
  cbn [fst snd]. destruct new_posts as [|r new_posts]; [reflexivity|].
  unfold bind at 1. now rewrite delivery_loop_run.
Qed.

Lemma sort_nil_inv (sorted : list PostRecord) :
  sort_by_timestamp [] = Ok sorted -> sorted = [].
Proof. cbn. now intros [= <-]. Qed.

Lemma main_run_nothing_new (e : env) (w : world) (sorted : list PostRecord) :
  sort_by_timestamp (fetched_posts e) = Ok sorted ->
  fst (novelty_filter (cursor_of w) sorted) = [] ->
  main e w = (Ok tt, w).
Proof.
  intros Hs Hnew. rewrite main_run, Hs, Hnew.
  destruct (fetched_posts e); reflexivity.
Qed.

Lemma main_run_new (e : env) (w : world) (sorted : list PostRecord) :
  sort_by_timestamp (fetched_posts e) = Ok sorted ->
  fst (novelty_filter (cursor_of w) sorted) <> [] ->
  main e w =
  save_last_processed_id (snd (novelty_filter (cursor_of w) sorted)) e
    {| cursor_file := cursor_file w;
       trace :=
         trace w
         ++ deliveries e
              (map notification_text
                 (fst (novelty_filter (cursor_of w) sorted))) |}.
Proof.
  intros Hs Hnew. rewrite main_run.
  destruct (fetched_posts e) as [|p posts] eqn:Hf.
  - apply sort_nil_inv in Hs. subst sorted. now contradiction Hnew.
  - rewrite Hs.
    destruct (fst (novelty_filter (cursor_of w) sorted)); [congruence|].
    reflexivity.
Qed.


(** X8: a run in which no fetched post is new makes no request and does not
    write the cursor file. *)
Theorem main_without_new_posts (e : env) (w : world)
    (sorted : list PostRecord) :
  sort_by_timestamp (fetched_posts e) = Ok sorted ->
  fst (novelty_filter (cursor_of w) sorted) = [] ->
  main e w = (Ok tt, w).
Proof. apply main_run_nothing_new. Qed.

Lemma main_without_new_posts_witness :
  main sample_env world_102 = (Ok tt, world_102).
Proof.
  apply (main_without_new_posts sample_env world_102
           [sample_post "099" "2024-01-01"; sample_post "101" "2024-01-02";
            sample_post "102" "2024-01-03"]); reflexivity.
Defined.



(** X10: when the token or the user id is missing, a run that finds new posts
    makes no request at all and still writes the updated cursor: those posts
    are never notified. *)
Theorem main_unconfigured_skips_posts (e : env) (w : world)
    (sorted : list PostRecord) :
  line_configured e = false ->
  sort_by_timestamp (fetched_posts e) = Ok sorted ->
  fst (novelty_filter (cursor_of w) sorted) <> [] ->
  write_fault e = None ->
  main e w =
  (Ok tt,
   {| cursor_file :=
        Some (stored e (snd (novelty_filter (cursor_of w) sorted)));
      trace :=
        trace w ++ [CursorWritten (snd (novelty_filter (cursor_of w) sorted))]
   |}).
Proof.
  intros Hc Hs Hnew Hw. rewrite (main_run_new e w sorted Hs Hnew).
  rewrite save_last_processed_id_run, Hw. cbn [trace cursor_file].
  unfold deliveries. rewrite Hc. now rewrite app_nil_r.
Qed.

Lemma main_unconfigured_skips_posts_witness :
  main env_unconfigured world_100 =
  (Ok tt, {| cursor_file := Some "102"; trace := [CursorWritten "102"] |}).
Proof.
  refine (main_unconfigured_skips_posts env_unconfigured world_100
            [sample_post "099" "2024-01-01"; sample_post "101" "2024-01-02";
             sample_post "102" "2024-01-03"] _ _ _ _).
  - reflexivity.
  - reflexivity.
  - vm_compute. discriminate.
  - reflexivity.
Defined.

(** X11: when writing the cursor file fails, the deliveries have already been
    made, the run raises [OSError] and the file keeps only the characters
    written before the failure; when none was written, the next run starts
    from the empty cursor. *)
Theorem main_write_failure (e : env) (w : world) (sorted : list PostRecord)
    (n : nat) :
  write_fault e = Some n ->
  sort_by_timestamp (fetched_posts e) = Ok sorted ->
  fst (novelty_filter (cursor_of w) sorted) <> [] ->
  main e w =
  (Raise OSError,
   {| cursor_file :=
        Some (str_prefix n
                (stored e (snd (novelty_filter (cursor_of w) sorted))));
      trace :=
        trace w
        ++ deliveries e
             (map notification_text
                (fst (novelty_filter (cursor_of w) sorted))) |})
  /\ (n = 0%nat -> cursor_of (snd (main e w)) = "").
Proof.
  intros Hw Hs Hnew. rewrite (main_run_new e w sorted Hs Hnew).
  rewrite save_last_processed_id_run, Hw. cbn [trace cursor_file snd].
  split; [reflexivity|]. intros ->. unfold cursor_of at 1.
  cbn [cursor_file]. unfold str_prefix.
  destruct (stored e _); reflexivity.
Qed.

Lemma main_write_failure_witness :
  main env_write_fails world_100 =
  (Raise OSError,
   {| cursor_file := Some "";
      trace :=
        [HttpPost "Bearer token" "user"
           (notification_text (sample_post "101" "2024-01-02"));
         HttpPost "Bearer token" "user"
           (notification_text (sample_post "102" "2024-01-03"))] |})
  /\ (0%nat = 0%nat -> cursor_of (snd (main env_write_fails world_100)) = "").
Proof.
  refine (main_write_failure env_write_fails world_100
            [sample_post "099" "2024-01-01"; sample_post "101" "2024-01-02";
             sample_post "102" "2024-01-03"] 0 _ _ _).
  - reflexivity.
  - reflexivity.
  - vm_compute. discriminate.
Defined.



(** ** The extraction loop *)

Lemma extract_loop (cs : list container) :
  forall acc, fold_left extract_step cs acc = acc ++ flat_map records_of cs.
Proof.
  induction cs as [|c cs IH]; intros acc; cbn [fold_left flat_map].
  - now rewrite app_nil_r.
  - rewrite IH. unfold extract_step, records_of.
    destruct (extract_post c); [now rewrite <- app_assoc | reflexivity].
Qed.

Lemma extract_records_eq (cs : list container) :
  extract_records cs = flat_map records_of cs.
Proof. unfold extract_records. now rewrite extract_loop. Qed.

Lemma extract_records_app (l1 l2 : list container) :
  extract_records (l1 ++ l2) = extract_records l1 ++ extract_records l2.
Proof. rewrite !extract_records_eq. apply flat_map_app. Qed.

Lemma records_of_malformed (c : container) :
  well_formed c = false -> records_of c = [].
Proof.
  unfold well_formed, records_of, extract_post.
  destruct (link_href c) as [[href|]|]; try discriminate. reflexivity.
Qed.

Lemma records_of_well_formed (c : container) :
  well_formed c = true -> exists r, records_of c = [r].
Proof.
  unfold well_formed, records_of, extract_post.
  destruct (link_href c) as [[href|]|]; try discriminate; eauto.
Qed.

Lemma extract_records_length (cs : list container) :
  Forall (fun c => well_formed c = true) cs ->
  List.length (extract_records cs) = List.length cs.
Proof.
  rewrite extract_records_eq.
  induction 1 as [|c cs Hc _ IH]; [reflexivity|].
  cbn [flat_map]. destruct (records_of_well_formed c Hc) as [r ->].
  cbn. now rewrite IH.
Qed.

Lemma extract_records_in (cs : list container) (r : PostRecord) :
  In r (extract_records cs) ->
  exists c, In c cs /\ extract_post c = Ok r.
Proof.
  rewrite extract_records_eq. intros H. apply in_flat_map in H.
  destruct H as [c [Hc Hr]]. exists c. split; [assumption|].
  unfold records_of in Hr. destruct (extract_post c) as [r'|]; [|destruct Hr].
  destruct Hr as [->|[]]. reflexivity.
Qed.

(** X13: extraction resilience: a container whose link element has no [href]
    is skipped and costs nothing else: the records before and after it are
    extracted as they would be without it, in document order, one per
    well-formed container. *)
Theorem extraction_skips_malformed (before after : list container)
    (bad : container) :
  well_formed bad = false ->
  Forall (fun c => well_formed c = true) (before ++ after) ->
  extract_records (before ++ bad :: after)
  = extract_records before ++ extract_records after
  /\ List.length (extract_records (before ++ bad :: after))
     = (List.length before + List.length after)%nat.
Proof.
  intros Hbad Hgood.
  assert (Heq : extract_records (before ++ bad :: after)
                = extract_records (before ++ after)).
  { rewrite !extract_records_app. f_equal.
    change (bad :: after) with ([bad] ++ after).
    rewrite extract_records_app, extract_records_eq. cbn [flat_map].
    now rewrite (records_of_malformed bad Hbad). }
  split.
  - now rewrite Heq, extract_records_app.
  - rewrite Heq, (extract_records_length _ Hgood). apply length_app.
Qed.

Lemma extraction_skips_malformed_witness :
  extract_records sample_containers
  = extract_records [sample_container "101" (Some (Some "/p/101"))]
    ++ extract_records [sample_container "103" None]
  /\ List.length (extract_records sample_containers) = 2%nat.
Proof.
  apply (extraction_skips_malformed
           [sample_container "101" (Some (Some "/p/101"))]
           [sample_container "103" None]
           (sample_container "102" (Some None))).
  - reflexivity.
  - repeat constructor.
Defined.

(** X14: every extracted record has an absolute link: it starts with
    ["http"], whatever the [href] was. *)
Theorem extracted_links_are_absolute (cs : list container) (r : PostRecord) :
  In r (extract_records cs) -> String.prefix "http" (link r) = true.
Proof.
  intros Hr. apply extract_records_in in Hr. destruct Hr as [c [_ Hc]].
  unfold extract_post in Hc.
  destruct (match link_href c with
            | Some href => href
            | None => Some TRUTH_SOCIAL_URL
            end) as [l|]; [|discriminate].
  injection Hc as <-. cbn [link].
  destruct (String.prefix "http" l) eqn:Hp; cbn [negb]; [exact Hp|].
  reflexivity.
Qed.

Lemma extracted_links_are_absolute_witness :
  String.prefix "http"
    (link {| id := "101"; content := "text";
             timestamp := Some "2024-01-01";
             link := "https://truthsocial.com/p/101" |}) = true.
Proof.
  apply (extracted_links_are_absolute sample_containers).
  left. reflexivity.
Defined.

(** X15: an extracted record lacks a timestamp only when its container has a
    time element without a [datetime] attribute; when no container is like
    that, sorting the extracted records does not raise. *)
Theorem extracted_timestamps (cs : list container) :
  (forall r, In r (extract_records cs) -> timestamp r = None ->
             exists c, In c cs /\ time_datetime c = Some None)
  /\ ((forall c, In c cs -> time_datetime c <> Some None) ->
      exists sorted, sort_by_timestamp (extract_records cs) = Ok sorted).
Proof.
  assert (H : forall r, In r (extract_records cs) -> timestamp r = None ->
                        exists c, In c cs /\ time_datetime c = Some None).
  { intros r Hr Ht. apply extract_records_in in Hr.
    destruct Hr as [c [Hc Hx]]. exists c. split; [assumption|].
    unfold extract_post in Hx.
    destruct (match link_href c with
              | Some href => href
              | None => Some TRUTH_SOCIAL_URL
              end); [|discriminate].
    injection Hx as <-. cbn [timestamp] in Ht.
    destruct (time_datetime c) as [attr|]; [now subst | discriminate]. }
  split; [exact H|].
  intros Hall. apply sort_by_timestamp_total. intros r Hr Ht.
  destruct (H r Hr Ht) as [c [Hc Hn]]. now apply (Hall c).
Qed.

Lemma extracted_timestamps_witness :
  exists sorted, sort_by_timestamp (extract_records sample_containers) = Ok sorted.
Proof.
  apply (proj2 (extracted_timestamps sample_containers)).
  intros c [<-|[<-|[<-|[]]]]; discriminate.
Defined.

(** ** Identifiers and the string order *)

Lemma digit_below_u (s t : string) :
  starts_with_digit s = true -> PyStr.lt s (String "u" t).
Proof.
  destruct s as [|d s]; [discriminate|]. cbn [starts_with_digit].
  unfold is_digit. intros H. apply andb_true_iff in H. destruct H as [_ H].
  apply N.leb_le in H. unfold PyStr.lt. cbn [String.compare].
  replace (Ascii.compare d "u") with Lt; [reflexivity|].
  symmetry. unfold Ascii.compare. apply N.compare_lt_iff.
  change (N_of_ascii "u") with 117%N. lia.
Qed.

(** X16: a container with neither a [data-id] element nor an [id] gets an id
    that starts with ["unknown-"], which is above every id that starts with a
    digit: its record is new for every such cursor, and once its id is the
    cursor no record whose id starts with a digit is new. *)
Theorem placeholder_id_outranks_digits (c : container) (r p : PostRecord)
    (s : string) :
  data_id c = None -> own_id c = None -> extract_post c = Ok r ->
  starts_with_digit s = true -> id p = s ->
  is_new s r = true /\ is_new (id r) p = false.
Proof.
  intros Hd Ho Hx Hs Hp.
  assert (Hlt : PyStr.lt s (id r)).
  { unfold extract_post in Hx. rewrite Hd, Ho in Hx.
    destruct (match link_href c with
              | Some href => href
              | None => Some TRUTH_SOCIAL_URL
              end); [|discriminate].
    injection Hx as <-. cbn [id String.append].
    now apply digit_below_u. }
  split.
  - apply is_new_true. now right.
  - apply is_new_false. split.
    + intros He. rewrite He in Hlt. destruct s; discriminate.
    + rewrite Hp. now apply PyStrFacts.lt_le.
Qed.

Lemma placeholder_id_outranks_digits_witness :
  is_new "102" placeholder_record = true
  /\ is_new (id placeholder_record) (sample_post "102" "2024-01-03") = false.
Proof.
  apply (placeholder_id_outranks_digits container_without_id
           placeholder_record (sample_post "102" "2024-01-03") "102");
    reflexivity.
Defined.

Lemma decimal_value_from_acc (s : string) :
  forall acc,
    decimal_value_from acc s
    = (acc * 10 ^ N.of_nat (String.length s) + decimal_value_from 0 s)%N.
Proof.
  induction s as [|c s IH]; intros acc;
    cbn [decimal_value_from String.length].
  - rewrite N.pow_0_r. lia.
  - rewrite (IH (10 * acc + (N_of_ascii c - 48))%N).
    rewrite (IH (10 * 0 + (N_of_ascii c - 48))%N).
    rewrite Nat2N.inj_succ, N.pow_succ_r'. ring.
Qed.

Lemma decimal_value_cons (c : ascii) (s : string) :
  decimal_value (String c s)
  = ((N_of_ascii c - 48) * 10 ^ N.of_nat (String.length s)
     + decimal_value s)%N.
Proof.
  unfold decimal_value. cbn [decimal_value_from].
  rewrite decimal_value_from_acc. now rewrite N.mul_0_r, N.add_0_l.
Qed.

Lemma decimal_value_bound (s : string) :
  all_digits s = true ->
  (decimal_value s < 10 ^ N.of_nat (String.length s))%N.
Proof.
  induction s as [|c s IH]; intros H.
  - cbn. lia.
  - cbn [all_digits] in H. apply andb_true_iff in H. destruct H as [Hc Hs].
    specialize (IH Hs). rewrite decimal_value_cons.
    cbn [String.length]. rewrite Nat2N.inj_succ, N.pow_succ_r'.
    unfold is_digit in Hc. apply andb_true_iff in Hc. destruct Hc as [_ Hc].
    apply N.leb_le in Hc. nia.
Qed.

Lemma digits_compare (a : string) :
  forall b,
    all_digits a = true -> all_digits b = true ->
    String.length a = String.length b ->
    (String.compare a b = Lt <-> (decimal_value a < decimal_value b)%N).
Proof.
  induction a as [|x a IH]; intros [|y b] Ha Hb Hlen; try discriminate.
  - cbn. split; [discriminate | lia].
  - cbn [all_digits] in Ha, Hb.
    apply andb_true_iff in Ha, Hb. destruct Ha as [Hx Ha], Hb as [Hy Hb].
    injection Hlen as Hlen.
    pose proof (decimal_value_bound a Ha) as Ba.
    pose proof (decimal_value_bound b Hb) as Bb.
    specialize (IH b Ha Hb Hlen).
    rewrite !decimal_value_cons, <- Hlen in *.
    unfold is_digit in Hx, Hy. apply andb_true_iff in Hx, Hy.
    destruct Hx as [Hx _], Hy as [Hy _]. apply N.leb_le in Hx, Hy.
    cbn [String.compare]. unfold Ascii.compare.
    set (P := (10 ^ N.of_nat (String.length a))%N) in *.
    destruct (N.compare_spec (N_of_ascii x) (N_of_ascii y)) as [He|Hl|Hg].
    + rewrite He, IH. lia.
    + split; [intros _; nia | reflexivity].
    + split; [discriminate | nia].
Qed.

(** X17: for a non-empty cursor and an id that are strings of decimal digits
    of the same length, the record is new exactly when its id is the greater
    number: on fixed-width numeric ids the string order is the numeric
    order. *)
Theorem fixed_width_ids_compare_numerically (c : string) (r : PostRecord) :
  c <> "" ->
  all_digits c = true -> all_digits (id r) = true ->
  String.length c = String.length (id r) ->
  (is_new c r = true <-> (decimal_value c < decimal_value (id r))%N).
Proof.
  intros Hne Hc Hr Hlen. rewrite is_new_true.
  rewrite <- (digits_compare c (id r) Hc Hr Hlen). unfold PyStr.lt. tauto.
Qed.

Lemma fixed_width_ids_compare_numerically_witness :
  is_new "100" (sample_post "101" "2024-01-02") = true
  <-> (decimal_value "100" < decimal_value "101")%N.
Proof.
  apply (fixed_width_ids_compare_numerically "100"
           (sample_post "101" "2024-01-02"));
    [discriminate | reflexivity | reflexivity | reflexivity].
Defined.

(** ** The first run *)

(** X18: a run that finds no cursor file, or a file with only whitespace in
    it, treats the whole page as new: it makes the deliveries of every
    fetched post in ascending order of timestamp and writes the greatest id
    as the cursor. *)
Theorem first_run_notifies_everything (e : env) (w : world)
    (sorted : list PostRecord) :
  cursor_of w = "" ->
  sort_by_timestamp (fetched_posts e) = Ok sorted ->
  sorted <> [] ->
  write_fault e = None ->
  main e w =
  (Ok tt,
   {| cursor_file := Some (stored e (max_of "" (map id sorted)));
      trace :=
        trace w
        ++ deliveries e (map notification_text sorted)
        ++ [CursorWritten (max_of "" (map id sorted))] |})
  /\ is_max_of (max_of "" (map id sorted)) (map id (fetched_posts e)).
Proof.
  intros Hc Hs Hne Hw.
  assert (Hnf : novelty_filter "" sorted = (sorted, max_of "" (map id sorted))).
  { rewrite novelty_filter_eq.
    now rewrite (filter_all (is_new "") sorted (fun r _ => is_new_empty r)). }
  split.
  - rewrite (main_run_new e w sorted Hs); rewrite Hc, Hnf; cbn [fst snd];
      [|assumption].
    rewrite save_last_processed_id_run, Hw. cbn [trace cursor_file].
    now rewrite app_assoc.
  - apply (is_max_of_perm _ (map id sorted)).
    + apply Permutation_map. symmetry. now apply sort_by_timestamp_perm.
    + destruct (max_of_is_max (map id sorted) "") as [Hin Hub]. split.
      * destruct Hin as [Hin|Hin]; [|assumption].
        destruct sorted as [|r sorted']; [congruence|].
        assert (Hr : PyStr.le (id r) (max_of "" (map id (r :: sorted'))))
          by (apply Hub; right; now left).
        rewrite <- Hin in Hr |- *. apply PyStrFacts.le_empty in Hr.
        left. exact Hr.
      * intros x Hx. apply Hub. now right.
Qed.

Lemma first_run_notifies_everything_witness :
  main sample_env world_fresh =
  (Ok tt,
   {| cursor_file := Some "102";
      trace :=
        [HttpPost "Bearer token" "user"
           (notification_text (sample_post "099" "2024-01-01"));
         HttpPost "Bearer token" "user"
           (notification_text (sample_post "101" "2024-01-02"));
         HttpPost "Bearer token" "user"
           (notification_text (sample_post "102" "2024-01-03"));
         CursorWritten "102"] |})
  /\ is_max_of "102" (map id (fetched_posts sample_env)).
Proof.
  refine (first_run_notifies_everything sample_env world_fresh
            [sample_post "099" "2024-01-01"; sample_post "101" "2024-01-02";
             sample_post "102" "2024-01-03"] _ _ _ _).
  - reflexivity.
  - reflexivity.
  - discriminate.
  - reflexivity.
Defined.
